(** * Cartesian impedance control policy

    A shallow embedding of
    [src/robots/controllers/cartesian_impedance_control.py]
    (class [CustomCartesianImpedanceControl]) and the properties of its
    constructor, of [update_desired_ee_pose] and of [forward].

    Tensors of floating point numbers are idealised: a scalar is an element
    of an arbitrary type carrying the ring operations, a 1-D tensor is a
    list of scalars and a 2-D tensor is a list of rows.  Laws of the
    operations (a commutative ring) are assumed only where a statement
    depends on arithmetic; IEEE rounding, infinities and NaN are outside
    the model. *)

From Stdlib Require Import ZArith Ring.
From stdpp Require Import gmap strings list fin_maps.

(** ** Scalars *)

Class Scalar (A : Type) := {
  s_zero : A;
  s_one : A;
  s_add : A -> A -> A;
  s_mul : A -> A -> A;
  s_sub : A -> A -> A;
  s_opp : A -> A
}.

Class ScalarRing (A : Type) `{Scalar A} : Prop :=
  scalar_ring : ring_theory s_zero s_one s_add s_mul s_sub s_opp eq.

Declare Scope scalar_scope.
Delimit Scope scalar_scope with sc.
Notation "x +s y" := (s_add x y) (at level 50, left associativity) : scalar_scope.
Notation "x -s y" := (s_sub x y) (at level 50, left associativity) : scalar_scope.
Notation "x *s y" := (s_mul x y) (at level 40, left associativity) : scalar_scope.
Notation "-s x" := (s_opp x) (at level 35, right associativity) : scalar_scope.
Local Open Scope scalar_scope.

#[global] Instance Z_scalar : Scalar Z := {|
  s_zero := 0%Z; s_one := 1%Z;
  s_add := Z.add; s_mul := Z.mul; s_sub := Z.sub; s_opp := Z.opp
|}.

#[global] Instance Z_scalar_ring : ScalarRing Z := InitialRing.Zth.

(** ** Exceptions and results *)

(** The exceptions a call can end with: [KeyError] for a missing dictionary
    key, [RuntimeError] for torch's size-mismatch failure of [@], [+] and
    the like, [ModelError] for whatever the injected robot model raises. *)
Inductive exn : Type :=
| KeyError (key : string)
| RuntimeError
| ModelError (code : nat).

Inductive result (X : Type) : Type :=
| Ok (x : X)
| Err (e : exn).
Arguments Ok {X} x.
Arguments Err {X} e.

Definition result_bind {X Y} (r : result X) (k : X -> result Y) : result Y :=
  match r with
  | Ok x => k x
  | Err e => Err e
  end.

Declare Scope result_scope.
Delimit Scope result_scope with res.
Notation "x <~ r ;; k" := (result_bind r (fun x => k))
  (at level 100, r at next level, right associativity) : result_scope.

(** ** Tensors *)

Section Tensors.
Context {A : Type} `{Scalar A}.

(** A 1-D tensor. *)
Definition Tensor : Type := list A.

(** A 2-D tensor: [mrows] holds [length mrows] rows of [ncols] entries. *)
Record Matrix : Type := mkMatrix {
  ncols : nat;
  mrows : list (list A)
}.

Definition nrows (m : Matrix) : nat := length (mrows m).

(** Every row has [ncols] entries, as in any torch tensor. *)
Definition rectangular (m : Matrix) : bool :=
  forallb (fun r => Nat.eqb (length r) (ncols m)) (mrows m).

(** [torch.zeros(n)] and [torch.zeros_like(t)]. *)
Definition zeros (n : nat) : Tensor := replicate n s_zero.
Definition zeros_like (t : Tensor) : Tensor := zeros (length t).

(** [torch.cat([a, b])] on 1-D tensors. *)
Definition cat (a b : Tensor) : Tensor := a ++ b.

(** Elementwise binary operators of torch on 1-D tensors: equal lengths
    combine pointwise, a length-1 operand is broadcast, anything else is a
    size mismatch. *)
Definition broadcast (f : A -> A -> A) (a b : Tensor) : result Tensor :=
  if Nat.eqb (length a) (length b) then Ok (zip_with f a b)
  else match a, b with
       | [x], _ => Ok (map (f x) b)
       | _, [y] => Ok (map (fun x => f x y) a)
       | _, _ => Err RuntimeError
       end.

Definition tensor_add : Tensor -> Tensor -> result Tensor := broadcast s_add.

Definition dot (r v : Tensor) : A :=
  foldr (fun xy acc => xy.1 *s xy.2 +s acc) s_zero (zip r v).

(** [m @ v] for a 2-D [m] and a 1-D [v]. *)
Definition matmul (m : Matrix) (v : Tensor) : result Tensor :=
  if Nat.eqb (ncols m) (length v) && rectangular m
  then Ok (map (fun r => dot r v) (mrows m))
  else Err RuntimeError.

Definition column (j : nat) (m : Matrix) : Tensor :=
  map (fun r => nth j r s_zero) (mrows m).

(** [m.T] *)
Definition transpose (m : Matrix) : Matrix :=
  {| ncols := nrows m; mrows := map (fun j => column j m) (seq 0 (ncols m)) |}.

Definition zero_matrix (n k : nat) : Matrix :=
  {| ncols := k; mrows := replicate n (zeros k) |}.
End Tensors.

Arguments Tensor A : clear implicits.
Arguments Matrix A : clear implicits.

(** ** The robot model

    The policy receives its robot model as a constructor argument and only
    ever calls three of its methods.  A model is therefore a record of three
    functions, each of which may raise.  [inverse_dynamics] takes the
    gravity flag as its last argument, as in the robot-model contract of the
    specification. *)

Record RobotModel (A : Type) : Type := mkRobotModel {
  forward_kinematics : Tensor A -> result (Tensor A * Tensor A);
  compute_jacobian : Tensor A -> result (Matrix A);
  inverse_dynamics : Tensor A -> Tensor A -> Tensor A -> bool -> result (Tensor A)
}.
Arguments mkRobotModel {A} _ _ _.
Arguments forward_kinematics {A} _ _.
Arguments compute_jacobian {A} _ _.
Arguments inverse_dynamics {A} _ _ _ _ _.

(** One entry of the log of robot-model invocations. *)
Inductive Call (A : Type) : Type :=
| CallForwardKinematics (q : Tensor A)
| CallJacobian (q : Tensor A)
| CallInverseDynamics (q qd qdd : Tensor A) (ignore_gravity : bool).
Arguments CallForwardKinematics {A} q.
Arguments CallJacobian {A} q.
Arguments CallInverseDynamics {A} q qd qdd ignore_gravity.

(** ** Computations

    A method runs on the object it belongs to (a state of type [S]), may
    raise, and talks to the robot model; the invocations are appended to a
    log.  An exception keeps the assignments made before it. *)

Definition Eff (A S X : Type) : Type :=
  S -> list (Call A) -> result X * S * list (Call A).

Section Eff.
Context {A S : Type}.

Definition ret {X} (x : X) : Eff A S X := fun s log => (Ok x, s, log).

Definition bind {X Y} (c : Eff A S X) (k : X -> Eff A S Y) : Eff A S Y :=
  fun s log =>
    match c s log with
    | (Ok x, s', log') => k x s' log'
    | (Err e, s', log') => (Err e, s', log')
    end.

Definition lift {X} (r : result X) : Eff A S X := fun s log => (r, s, log).

(** Read an attribute of [self]. *)
Definition getattr {X} (f : S -> X) : Eff A S X := fun s log => (Ok (f s), s, log).

(** Assign an attribute of [self]. *)
Definition setattr (f : S -> S) : Eff A S unit := fun s log => (Ok tt, f s, log).

Definition record_call (c : Call A) : Eff A S unit :=
  fun s log => (Ok tt, s, log ++ [c]).
End Eff.

Declare Scope eff_scope.
Delimit Scope eff_scope with eff.
Notation "x <- c ;; k" := (bind c (fun x => k))
  (at level 100, c at next level, right associativity) : eff_scope.
Notation "c ;;; k" := (bind c (fun _ => k))
  (at level 100, right associativity) : eff_scope.

Section RobotCalls.
Context {A S : Type}.
Local Open Scope eff_scope.

Definition call_forward_kinematics (rm : RobotModel A) (q : Tensor A)
  : Eff A S (Tensor A * Tensor A) :=
  record_call (CallForwardKinematics q) ;;;
  lift (forward_kinematics rm q).

Definition call_compute_jacobian (rm : RobotModel A) (q : Tensor A)
  : Eff A S (Matrix A) :=
  record_call (CallJacobian q) ;;;
  lift (compute_jacobian rm q).

Definition call_inverse_dynamics (rm : RobotModel A) (q qd qdd : Tensor A) (g : bool)
  : Eff A S (Tensor A) :=
  record_call (CallInverseDynamics q qd qdd g) ;;;
  lift (inverse_dynamics rm q qd qdd g).
End RobotCalls.

(** ** Control modules of torchcontrol used by the policy *)

Section Modules.
Context {A : Type} `{Scalar A}.
Local Open Scope result_scope.

(** Pointwise combination of two vectors of the same length. *)
Definition pointwise (f : A -> A -> A) (a b : Tensor A) : result (Tensor A) :=
  if Nat.eqb (length a) (length b) then Ok (zip_with f a b) else Err RuntimeError.

Definition vector_add : Tensor A -> Tensor A -> result (Tensor A) := pointwise s_add.
Definition vector_sub : Tensor A -> Tensor A -> result (Tensor A) := pointwise s_sub.

(** A quaternion, read from a 4-element tensor with the vector part first
    and the scalar part last. *)
Record Quaternion : Type := mkQuaternion { qx : A; qy : A; qz : A; qw : A }.

Definition quaternion_of_tensor (t : Tensor A) : result Quaternion :=
  match t with
  | [x; y; z; w] => Ok (mkQuaternion x y z w)
  | _ => Err RuntimeError
  end.

(** Inverse of a unit quaternion. *)
Definition quaternion_inverse (q : Quaternion) : Quaternion :=
  mkQuaternion (-s qx q) (-s qy q) (-s qz q) (qw q).

(** Hamilton product. *)
Definition quaternion_multiply (a b : Quaternion) : Quaternion :=
  mkQuaternion
    (qw a *s qx b +s qx a *s qw b +s qy a *s qz b -s qz a *s qy b)
    (qw a *s qy b -s qx a *s qz b +s qy a *s qw b +s qz a *s qx b)
    (qw a *s qz b +s qx a *s qy b -s qy a *s qx b +s qz a *s qw b)
    (qw a *s qw b -s qx a *s qx b -s qy a *s qy b -s qz a *s qz b).

Definition s_two : A := s_one +s s_one.

(** Modelled from the spec: the orientation error of the Cartesian PD
    module ([torchcontrol]'s feedback module is not part of the sources).
    The relative rotation [quat_des * inverse(quat_cur)] is turned into a
    3-vector by taking twice its vector part; orientations are unit
    quaternions, so the inverse is the conjugate. *)
Definition orientation_error (quat_cur quat_des : Tensor A) : result (Tensor A) :=
  qc <~ quaternion_of_tensor quat_cur ;;
  qd <~ quaternion_of_tensor quat_des ;;
  let delta_q := quaternion_multiply qd (quaternion_inverse qc) in
  Ok [s_two *s qx delta_q; s_two *s qy delta_q; s_two *s qz delta_q].

(** [toco.modules.feedback.CartesianSpacePDFast(Kp, Kd)]: the module keeps
    the two gain matrices. *)
Record CartesianSpacePDFast : Type := mkCartesianSpacePDFast {
  Kp : Matrix A;
  Kd : Matrix A
}.

(** Modelled from the spec: the forward pass of the Cartesian PD module
    ([torchcontrol]'s feedback module is not part of the sources), steps
    1 to 5 of the module's algorithm: position error, orientation error,
    their concatenation, twist error, and
    [Kp . pose_error + Kd . twist_error]. *)
Definition pose_pd_forward (pd : CartesianSpacePDFast)
    (pos_current quat_current twist_current
     pos_desired quat_desired twist_desired : Tensor A) : result (Tensor A) :=
  pos_err <~ vector_sub pos_desired pos_current ;;
  ori_err <~ orientation_error quat_current quat_desired ;;
  let pose_err := cat pos_err ori_err in
  twist_err <~ vector_sub twist_desired twist_current ;;
  p_term <~ matmul (Kp pd) pose_err ;;
  d_term <~ matmul (Kd pd) twist_err ;;
  vector_add p_term d_term.

(** [toco.modules.feedforward.InverseDynamics(robot_model, ignore_gravity)]:
    the module keeps the model and the flag. *)
Record InverseDynamics : Type := mkInverseDynamics {
  invdyn_robot_model : RobotModel A;
  ignore_gravity : bool
}.

(** Modelled from the spec: the forward pass of the inverse-dynamics module
    ([torchcontrol]'s feedforward module is not part of the sources): one
    invocation of the robot model's [inverse_dynamics] with the given joint
    state and acceleration and the module's gravity flag. *)
Definition invdyn_forward {S} (m : InverseDynamics) (q qd qdd : Tensor A)
  : Eff A S (Tensor A) :=
  call_inverse_dynamics (invdyn_robot_model m) q qd qdd (ignore_gravity m).
End Modules.

Arguments Quaternion A : clear implicits.
Arguments CartesianSpacePDFast A : clear implicits.
Arguments InverseDynamics A : clear implicits.

(** ** The policy *)

Section Policy.
Context {A : Type} `{Scalar A}.
Local Open Scope eff_scope.

(** The attributes of a [CustomCartesianImpedanceControl] object. *)
Record Policy : Type := mkPolicy {
  robot_model : RobotModel A;
  invdyn : InverseDynamics A;
  pose_pd : CartesianSpacePDFast A;
  ee_pos_desired : Tensor A;
  ee_quat_desired : Tensor A;
  ee_vel_desired : Tensor A;
  ee_rvel_desired : Tensor A
}.

Definition set_ee_pos_desired (t : Tensor A) (p : Policy) : Policy :=
  mkPolicy (robot_model p) (invdyn p) (pose_pd p)
           t (ee_quat_desired p) (ee_vel_desired p) (ee_rvel_desired p).

Definition set_ee_quat_desired (t : Tensor A) (p : Policy) : Policy :=
  mkPolicy (robot_model p) (invdyn p) (pose_pd p)
           (ee_pos_desired p) t (ee_vel_desired p) (ee_rvel_desired p).

(** [to_tensor]: the argument already is a tensor. *)
Definition to_tensor (t : Tensor A) : Tensor A := t.

(** [__init__].  The optional targets are [None] when omitted.  The object
    exists once the last attribute is assigned. *)
Definition __init__ (joint_pos_current : Tensor A) (Kp0 Kd0 : Matrix A)
    (rm : RobotModel A) (ignore_gravity0 : bool)
    (ee_pos_desired0 ee_quat_desired0 : option (Tensor A)) : Eff A unit Policy :=
  let invdyn0 := mkInverseDynamics rm ignore_gravity0 in
  let pose_pd0 := mkCartesianSpacePDFast Kp0 Kd0 in
  let joint_pos_current := to_tensor joint_pos_current in
  ee_current <- call_forward_kinematics rm joint_pos_current ;;
  let '(ee_pos_current, ee_quat_current) := ee_current in
  let ee_pos_desired1 :=
    match ee_pos_desired0 with None => ee_pos_current | Some t => t end in
  let ee_quat_desired1 :=
    match ee_quat_desired0 with None => ee_quat_current | Some t => t end in
  ret (mkPolicy rm invdyn0 pose_pd0
                ee_pos_desired1 ee_quat_desired1 (zeros 3) (zeros 3)).

(** [update_desired_ee_pose]: two assignments, position first. *)
Definition update_desired_ee_pose (ee_pos_desired0 ee_quat_desired0 : Tensor A)
  : Eff A Policy unit :=
  setattr (set_ee_pos_desired ee_pos_desired0) ;;;
  setattr (set_ee_quat_desired ee_quat_desired0).

(** [state_dict[key]] *)
Definition getitem {S} (state_dict : gmap string (Tensor A)) (key : string)
  : Eff A S (Tensor A) :=
  match state_dict !! key with
  | Some t => ret t
  | None => lift (Err (KeyError key))
  end.

(** [forward] *)
Definition forward (state_dict : gmap string (Tensor A))
  : Eff A Policy (gmap string (Tensor A)) :=
  joint_pos_current <- getitem state_dict "joint_positions" ;;
  joint_vel_current <- getitem state_dict "joint_velocities" ;;
  rm <- getattr robot_model ;;
  ee_current <- call_forward_kinematics rm joint_pos_current ;;
  let '(ee_pos_current, ee_quat_current) := ee_current in
  rm' <- getattr robot_model ;;
  jacobian <- call_compute_jacobian rm' joint_pos_current ;;
  ee_twist_current <- lift (matmul jacobian joint_vel_current) ;;
  pd <- getattr pose_pd ;;
  pos_des <- getattr ee_pos_desired ;;
  quat_des <- getattr ee_quat_desired ;;
  vel_des <- getattr ee_vel_desired ;;
  rvel_des <- getattr ee_rvel_desired ;;
  wrench_feedback <- lift (pose_pd_forward pd ee_pos_current ee_quat_current
                             ee_twist_current pos_des quat_des
                             (cat vel_des rvel_des)) ;;
  torque_feedback <- lift (matmul (transpose jacobian) wrench_feedback) ;;
  id <- getattr invdyn ;;
  torque_feedforward <- invdyn_forward id joint_pos_current joint_vel_current
                          (zeros_like joint_pos_current) ;;
  torque_out <- lift (tensor_add torque_feedback torque_feedforward) ;;
  ret ({[ "joint_torques" := torque_out ]} : gmap string (Tensor A)).
End Policy.

Arguments Policy A : clear implicits.

(** ** Read-only computations *)

(** A computation is read-only when it hands back the object it was run on,
    whatever its outcome. *)
Definition read_only {A S X} (c : Eff A S X) : Prop :=
  forall s log, (c s log).1.2 = s.

(** ** Policies a program can hold

    A policy comes out of the constructor and is afterwards only changed by
    [update_desired_ee_pose]. *)

Section Constructed.
Context {A : Type} `{Scalar A}.
Variables (joint_pos_init : Tensor A) (Kp0 Kd0 : Matrix A)
          (rm : RobotModel A) (ignore_gravity0 : bool).

Inductive constructed : Policy A -> Prop :=
| constructed_init ee_pos0 ee_quat0 log pol :
    (__init__ joint_pos_init Kp0 Kd0 rm ignore_gravity0 ee_pos0 ee_quat0 tt log).1.1
      = Ok pol ->
    constructed pol
| constructed_update pos quat log pol :
    constructed pol ->
    constructed (update_desired_ee_pose pos quat pol log).1.2.
End Constructed.

(** The same, with the ticks in between counted in: whatever object a tick
    leaves behind is a policy the program can hold. *)

Section Reachable.
Context {A : Type} `{Scalar A}.
Variables (joint_pos_init : Tensor A) (Kp0 Kd0 : Matrix A)
          (rm : RobotModel A) (ignore_gravity0 : bool).

Inductive reachable : Policy A -> Prop :=
| reachable_init ee_pos0 ee_quat0 log pol :
    (__init__ joint_pos_init Kp0 Kd0 rm ignore_gravity0 ee_pos0 ee_quat0 tt log).1.1
      = Ok pol ->
    reachable pol
| reachable_update pos quat log pol :
    reachable pol ->
    reachable (update_desired_ee_pose pos quat pol log).1.2
| reachable_tick state_dict log pol :
    reachable pol ->
    reachable (forward state_dict pol log).1.2.
End Reachable.

(** ** The control law in the words of the specification *)

Section Law.
Context {A : Type} `{Scalar A}.
Local Open Scope result_scope.

(** Twist, PD wrench against the held target, Jacobian-transpose
    projection. *)
Definition feedback_torque (pol : Policy A) (pos quat : Tensor A)
    (jacobian : Matrix A) (qd : Tensor A) : result (Tensor A) :=
  twist <~ matmul jacobian qd ;;
  wrench <~ pose_pd_forward (pose_pd pol) pos quat twist
              (ee_pos_desired pol) (ee_quat_desired pol)
              (cat (ee_vel_desired pol) (ee_rvel_desired pol)) ;;
  matmul (transpose jacobian) wrench.

(** [Jacobian(q)^T * wrench + inverse_dynamics(q, qd, 0)]. *)
Definition torque_law (pol : Policy A) (q qd : Tensor A) : result (Tensor A) :=
  pose <~ forward_kinematics (robot_model pol) q ;;
  jacobian <~ compute_jacobian (robot_model pol) q ;;
  torque_feedback <~ feedback_torque pol pose.1 pose.2 jacobian qd ;;
  torque_feedforward <~ inverse_dynamics (invdyn_robot_model (invdyn pol))
                          q qd (zeros_like q) (ignore_gravity (invdyn pol)) ;;
  tensor_add torque_feedback torque_feedforward.

(** The same law with the target written out: the torque for the joint
    state [(q, qd)] when the pose error is taken against the desired pose
    [(pos_des, quat_des)] and the twist error against [twist_des]. *)
Definition torque_law_against (rm : RobotModel A) (pd : CartesianSpacePDFast A)
    (g : bool) (pos_des quat_des twist_des q qd : Tensor A) : result (Tensor A) :=
  pose <~ forward_kinematics rm q ;;
  jacobian <~ compute_jacobian rm q ;;
  twist <~ matmul jacobian qd ;;
  wrench <~ pose_pd_forward pd pose.1 pose.2 twist pos_des quat_des twist_des ;;
  torque_feedback <~ matmul (transpose jacobian) wrench ;;
  torque_feedforward <~ inverse_dynamics rm q qd (zeros_like q) g ;;
  tensor_add torque_feedback torque_feedforward.

(** The returned dictionary. *)
Definition torque_dict (r : result (Tensor A)) : result (gmap string (Tensor A)) :=
  out <~ r ;; Ok ({[ "joint_torques" := out ]} : gmap string (Tensor A)).

(** A run that raised without having invoked the robot model: the log is
    still the one the call started with. *)
Definition fails_before_robot_model {S X}
    (run : result X * S * list (Call A)) (log : list (Call A)) : Prop :=
  exists e, run.1.1 = Err e /\ run.2 = log.

(** The three invocations of a tick that gets as far as the feedforward. *)
Definition tick_calls (pol : Policy A) (q qd : Tensor A) : list (Call A) :=
  [CallForwardKinematics q; CallJacobian q;
   CallInverseDynamics q qd (zeros_like q) (ignore_gravity (invdyn pol))].
End Law.

(** ** A concrete robot: a planar arm with two joints, over the integers

    Its end effector sits at [(q0, q1, 0)] with the identity orientation,
    the Jacobian is the 6x2 matrix that copies the two joint velocities into
    the two first twist components, and the inverse dynamics are
    [qdd + (qd1 * qd1, qd0 * qd1)], plus a gravity term of [(7, 3)] unless
    gravity is ignored.  Every method rejects a joint vector whose length is
    not two. *)

Module Planar.
Local Open Scope Z_scope.

Definition dof : nat := 2.

Definition arm_forward_kinematics (q : Tensor Z) : result (Tensor Z * Tensor Z) :=
  match q with
  | [q0; q1] => Ok ([q0; q1; 0], [0; 0; 0; 1])
  | _ => Err (ModelError 1)
  end.

Definition jacobian : Matrix Z :=
  mkMatrix 2 [[1; 0]; [0; 1]; [0; 0]; [0; 0]; [0; 0]; [0; 0]].

Definition arm_compute_jacobian (q : Tensor Z) : result (Matrix Z) :=
  match q with
  | [_; _] => Ok jacobian
  | _ => Err (ModelError 2)
  end.

Definition arm_inverse_dynamics (q qd qdd : Tensor Z) (ignore_gravity : bool)
  : result (Tensor Z) :=
  match q, qd, qdd with
  | [_; _], [v0; v1], [a0; a1] =>
      let g0 := if ignore_gravity then 0 else 7 in
      let g1 := if ignore_gravity then 0 else 3 in
      Ok [a0 + v1 * v1 + g0; a1 + v0 * v1 + g1]
  | _, _, _ => Err (ModelError 3)
  end.

Definition model : RobotModel Z :=
  mkRobotModel arm_forward_kinematics arm_compute_jacobian arm_inverse_dynamics.

Definition diag6 (k : Z) : Matrix Z :=
  mkMatrix 6 [[k; 0; 0; 0; 0; 0]; [0; k; 0; 0; 0; 0]; [0; 0; k; 0; 0; 0];
              [0; 0; 0; k; 0; 0]; [0; 0; 0; 0; k; 0]; [0; 0; 0; 0; 0; k]].

(** A policy holding the pose of the joint configuration [(4, 5)]. *)
Definition policy : Policy Z :=
  mkPolicy model (mkInverseDynamics model true)
           (mkCartesianSpacePDFast (diag6 10) (diag6 1))
           [4; 5; 0] [0; 0; 0; 1] [0; 0; 0] [0; 0; 0].

(** The same policy with both gains zero. *)
Definition limp : Policy Z :=
  mkPolicy model (mkInverseDynamics model true)
           (mkCartesianSpacePDFast (zero_matrix 6 6) (zero_matrix 6 6))
           [4; 5; 0] [0; 0; 0; 1] [0; 0; 0] [0; 0; 0].

Definition state (q qd : Tensor Z) : gmap string (Tensor Z) :=
  {[ "joint_positions" := q; "joint_velocities" := qd ]}.

(** The arm with inverse dynamics that return the given vector, whatever the
    joint state, and the policy of the arm on that model. *)
Definition with_feedforward (ff : Tensor Z) : RobotModel Z :=
  mkRobotModel arm_forward_kinematics arm_compute_jacobian (fun _ _ _ _ => Ok ff).

Definition policy_on (rm : RobotModel Z) : Policy Z :=
  mkPolicy rm (mkInverseDynamics rm true)
           (mkCartesianSpacePDFast (diag6 10) (diag6 1))
           [4; 5; 0] [0; 0; 0; 1] [0; 0; 0] [0; 0; 0].
End Planar.

(** * Properties *)

(** ** Read-only computations compose *)

Section ReadOnly.
Context {A S : Type}.
Abbreviation read_only := (@read_only A S _).

Lemma read_only_ret {X} (x : X) : read_only (ret x).
Proof. intros s log. reflexivity. Qed.

Lemma read_only_lift {X} (r : result X) : read_only (lift r).
Proof. intros s log. reflexivity. Qed.

Lemma read_only_getattr {X} (f : S -> X) : read_only (getattr f).
Proof. intros s log. reflexivity. Qed.

Lemma read_only_record_call (c : Call A) : read_only (record_call c).
Proof. intros s log. reflexivity. Qed.

Lemma read_only_bind {X Y} (c : Eff A S X) (k : X -> Eff A S Y) :
  read_only c -> (forall x, read_only (k x)) -> read_only (bind c k).
Proof.
  intros Hc Hk s log. unfold bind.
  specialize (Hc s log).
  destruct (c s log) as [[[x | e] s'] log']; simpl in Hc; subst s'.
  - apply Hk.
  - reflexivity.
Qed.

Lemma read_only_call_forward_kinematics rm q :
  read_only (call_forward_kinematics (S := S) rm q).
Proof.
  apply read_only_bind; [apply read_only_record_call | intros _; apply read_only_lift].
Qed.

Lemma read_only_call_compute_jacobian rm q :
  read_only (call_compute_jacobian (S := S) rm q).
Proof.
  apply read_only_bind; [apply read_only_record_call | intros _; apply read_only_lift].
Qed.

Lemma read_only_call_inverse_dynamics rm q qd qdd g :
  read_only (call_inverse_dynamics (S := S) rm q qd qdd g).
Proof.
  apply read_only_bind; [apply read_only_record_call | intros _; apply read_only_lift].
Qed.
End ReadOnly.

Create HintDb read_only.
#[export] Hint Resolve read_only_ret read_only_lift read_only_getattr
  read_only_record_call read_only_call_forward_kinematics
  read_only_call_compute_jacobian read_only_call_inverse_dynamics : read_only.

Ltac read_only_step :=
  match goal with
  | |- read_only (bind _ _) => apply read_only_bind; [| intros ?]
  | |- read_only (let '(_, _) := ?x in _) => destruct x
  | |- read_only (match ?x with Some _ => _ | None => _ end) => destruct x
  | |- read_only _ => solve [auto with read_only]
  end.

(** ** The life of a policy object *)

Section Lifecycle.
Context {A : Type} `{Scalar A}.
Variables (joint_pos_init : Tensor A) (Kp0 Kd0 : Matrix A)
          (rm : RobotModel A) (ignore_gravity0 : bool).
Abbreviation constructed := (constructed joint_pos_init Kp0 Kd0 rm ignore_gravity0).

Lemma init_run ee_pos0 ee_quat0 log :
  __init__ joint_pos_init Kp0 Kd0 rm ignore_gravity0 ee_pos0 ee_quat0 tt log =
  (match forward_kinematics rm joint_pos_init with
   | Ok (ee_pos_current, ee_quat_current) =>
       Ok (mkPolicy rm (mkInverseDynamics rm ignore_gravity0)
                    (mkCartesianSpacePDFast Kp0 Kd0)
                    (default ee_pos_current ee_pos0)
                    (default ee_quat_current ee_quat0)
                    (zeros 3) (zeros 3))
   | Err e => Err e
   end, tt, log ++ [CallForwardKinematics joint_pos_init]).
Proof.
  unfold __init__, call_forward_kinematics, to_tensor, bind, record_call, lift, ret.
  destruct (forward_kinematics rm joint_pos_init) as [[p o] | e]; [| reflexivity].
  destruct ee_pos0, ee_quat0; reflexivity.
Qed.

Lemma update_run pos quat (pol : Policy A) log :
  update_desired_ee_pose pos quat pol log =
  (Ok tt,
   mkPolicy (robot_model pol) (invdyn pol) (pose_pd pol)
            pos quat (ee_vel_desired pol) (ee_rvel_desired pol),
   log).
Proof. reflexivity. Qed.

(** What construction fixes and no update changes. *)
Lemma constructed_fixed pol :
  constructed pol ->
  robot_model pol = rm /\
  invdyn pol = mkInverseDynamics rm ignore_gravity0 /\
  pose_pd pol = mkCartesianSpacePDFast Kp0 Kd0 /\
  ee_vel_desired pol = zeros 3 /\
  ee_rvel_desired pol = zeros 3.
Proof.
  induction 1 as [p0 o0 log pol Hinit | pos quat log pol Hpol IH].
  - rewrite init_run in Hinit. simpl in Hinit.
    destruct (forward_kinematics rm joint_pos_init) as [[p o] | e]; [| discriminate].
    injection Hinit as <-. repeat split.
  - rewrite update_run. simpl. exact IH.
Qed.
End Lifecycle.


(** ** What a tick does, step by step *)

Section ForwardRun.
Context {A : Type} `{Scalar A}.

Lemma forward_run (pol : Policy A) (sd : gmap string (Tensor A)) q qd log :
  sd !! "joint_positions" = Some q ->
  sd !! "joint_velocities" = Some qd ->
  forward sd pol log =
  match forward_kinematics (robot_model pol) q with
  | Err e => (Err e, pol, log ++ [CallForwardKinematics q])
  | Ok (pos, quat) =>
      match compute_jacobian (robot_model pol) q with
      | Err e => (Err e, pol, log ++ [CallForwardKinematics q; CallJacobian q])
      | Ok jacobian =>
          match feedback_torque pol pos quat jacobian qd with
          | Err e => (Err e, pol, log ++ [CallForwardKinematics q; CallJacobian q])
          | Ok torque_feedback =>
              (torque_dict
                 (result_bind
                    (inverse_dynamics (invdyn_robot_model (invdyn pol))
                       q qd (zeros_like q) (ignore_gravity (invdyn pol)))
                    (tensor_add torque_feedback)),
               pol, log ++ tick_calls pol q qd)
          end
      end
  end.
Proof.
  intros Hq Hqd.
  unfold forward, getitem. rewrite Hq, Hqd.
  unfold call_forward_kinematics, call_compute_jacobian, invdyn_forward,
    call_inverse_dynamics, feedback_torque, tick_calls, torque_dict,
    bind, ret, lift, getattr, record_call, result_bind.
  simpl.
  destruct (forward_kinematics (robot_model pol) q) as [[pos quat] | e];
    [| reflexivity].
  rewrite <- ?app_assoc; simpl.
  destruct (compute_jacobian (robot_model pol) q) as [jacobian | e];
    [| reflexivity].
  destruct (matmul jacobian qd) as [twist | e]; [| reflexivity].
  destruct (pose_pd_forward _ _ _ _ _ _ _) as [wrench | e]; [| reflexivity].
  destruct (matmul (transpose jacobian) wrench) as [tfb | e]; [| reflexivity].
  rewrite <- ?app_assoc; simpl.
  destruct (inverse_dynamics _ _ _ _ _) as [ff | e]; [| reflexivity].
  destruct (tensor_add tfb ff); reflexivity.
Qed.

Lemma forward_read_only (sd : gmap string (Tensor A)) : read_only (forward sd).
Proof.
  unfold forward, getitem, invdyn_forward.
  repeat read_only_step.
Qed.
End ForwardRun.

(** ** Properties of the constructor and of the two methods *)

Section Properties.
Context {A : Type} `{Scalar A}.
Local Open Scope eff_scope.

(** C5: a tick leaves the policy object as it found it, whatever the state
    dictionary and whether it returns or raises: the desired position,
    orientation, linear and angular velocity, the gains and the gravity
    flag after the call are the ones before it. *)
Theorem forward_leaves_policy_unchanged
    (sd : gmap string (Tensor A)) (pol : Policy A) log :
  (forward sd pol log).1.2 = pol.
Proof. apply forward_read_only. Qed.

(** C4: [update_desired_ee_pose] returns normally, installs the given
    position and orientation as the desired ones, and leaves the desired
    linear and angular velocity (and every other attribute) as they were. *)
Theorem update_desired_ee_pose_frame (pos quat : Tensor A) (pol : Policy A) log :
  exists pol',
    update_desired_ee_pose pos quat pol log = (Ok tt, pol', log) /\
    ee_pos_desired pol' = pos /\
    ee_quat_desired pol' = quat /\
    ee_vel_desired pol' = ee_vel_desired pol /\
    ee_rvel_desired pol' = ee_rvel_desired pol /\
    robot_model pol' = robot_model pol /\
    invdyn pol' = invdyn pol /\
    pose_pd pol' = pose_pd pol.
Proof.
  eexists. rewrite update_run. repeat split.
Qed.

(** C3: when forward kinematics of the initial joint positions returns the
    pose [(pos, quat)], construction succeeds; an omitted desired position
    is initialised to [pos], an omitted desired orientation to [quat], and
    both desired velocities are the zero 3-vector in every case. *)
Theorem init_holds_current_pose
    (q0 : Tensor A) (Kp0 Kd0 : Matrix A) (rm : RobotModel A) (g : bool)
    (ee_pos0 ee_quat0 : option (Tensor A)) log (pos quat : Tensor A) :
  forward_kinematics rm q0 = Ok (pos, quat) ->
  exists pol,
    (__init__ q0 Kp0 Kd0 rm g ee_pos0 ee_quat0 tt log).1.1 = Ok pol /\
    (ee_pos0 = None -> ee_pos_desired pol = pos) /\
    (ee_quat0 = None -> ee_quat_desired pol = quat) /\
    ee_vel_desired pol = zeros 3 /\
    ee_rvel_desired pol = zeros 3.
Proof.
  intros Hfk. rewrite init_run, Hfk. simpl.
  eexists. split; [reflexivity |]. simpl.
  repeat split; intros ->; reflexivity.
Qed.

(** C10: every construction invokes forward kinematics on the initial
    joint positions exactly once, also when both targets are supplied, and
    a failure of that invocation is the failure of the construction. *)
Theorem init_always_invokes_forward_kinematics
    (q0 : Tensor A) (Kp0 Kd0 : Matrix A) (rm : RobotModel A) (g : bool)
    (ee_pos0 ee_quat0 : option (Tensor A)) log :
  let run := __init__ q0 Kp0 Kd0 rm g ee_pos0 ee_quat0 tt log in
  run.2 = log ++ [CallForwardKinematics q0] /\
  run.1.1 =
    match forward_kinematics rm q0 with
    | Ok (pos, quat) =>
        Ok (mkPolicy rm (mkInverseDynamics rm g) (mkCartesianSpacePDFast Kp0 Kd0)
                     (default pos ee_pos0) (default quat ee_quat0)
                     (zeros 3) (zeros 3))
    | Err e => Err e
    end.
Proof.
  simpl. rewrite init_run. split; reflexivity.
Qed.

(** C8: on a policy built by the constructor and changed by any number of
    updates, [update_desired_ee_pose pos quat] followed by a tick leaves an
    object whose desired pose is [(pos, quat)], and the tick's outcome is the
    control law with the pose error taken against [(pos, quat)]: the target
    held before the update does not enter it.  The run is the one a tick
    makes on a policy built by the same constructor call with [pos] and
    [quat] supplied as the targets: same outcome, same resulting object, same
    robot-model invocations. *)
Theorem update_then_forward_is_fresh
    (q0 : Tensor A) (Kp0 Kd0 : Matrix A) (rm : RobotModel A) (g : bool)
    (pol fresh : Policy A) (pos quat : Tensor A)
    (sd : gmap string (Tensor A)) log0 log :
  constructed q0 Kp0 Kd0 rm g pol ->
  (__init__ q0 Kp0 Kd0 rm g (Some pos) (Some quat) tt log0).1.1 = Ok fresh ->
  let run := (update_desired_ee_pose pos quat ;;; forward sd) pol log in
  run = forward sd fresh log /\
  ee_pos_desired run.1.2 = pos /\
  ee_quat_desired run.1.2 = quat /\
  (forall q qd,
     sd !! "joint_positions" = Some q ->
     sd !! "joint_velocities" = Some qd ->
     run.1.1 =
       torque_dict
         (torque_law_against rm (mkCartesianSpacePDFast Kp0 Kd0) g
            pos quat (zeros 6) q qd)).
Proof.
  intros Hpol Hfresh run. subst run.
  destruct (constructed_fixed _ _ _ _ _ _ Hpol) as (Hrm & Hid & Hpd & Hv & Hrv).
  rewrite init_run in Hfresh. simpl in Hfresh.
  destruct (forward_kinematics rm q0) as [[p o] | e]; [| discriminate].
  injection Hfresh as <-.
  unfold bind at 1 2 3 4. rewrite update_run.
  rewrite Hrm, Hid, Hpd, Hv, Hrv.
  set (fresh := mkPolicy rm (mkInverseDynamics rm g)
                  (mkCartesianSpacePDFast Kp0 Kd0) pos quat (zeros 3) (zeros 3)).
  split; [reflexivity |].
  rewrite (forward_read_only sd fresh log).
  split; [reflexivity |]. split; [reflexivity |].
  intros q qd Hq Hqd.
  rewrite (forward_run fresh sd q qd log Hq Hqd).
  unfold torque_law_against, feedback_torque, torque_dict, result_bind.
  cbn [fresh robot_model invdyn pose_pd ee_pos_desired ee_quat_desired
       ee_vel_desired ee_rvel_desired invdyn_robot_model ignore_gravity].
  change (cat (zeros 3) (zeros 3)) with (zeros (A := A) 6).
  destruct (forward_kinematics rm q) as [[pos_cur quat_cur] | e]; [| reflexivity].
  cbn [fst snd].
  destruct (compute_jacobian rm q) as [jacobian | e]; [| reflexivity].
  destruct (matmul jacobian qd) as [twist | e]; [| reflexivity].
  destruct (pose_pd_forward _ _ _ _ _ _ _) as [wrench | e]; [| reflexivity].
  destruct (matmul (transpose jacobian) wrench) as [tfb | e]; [| reflexivity].
  reflexivity.
Qed.
End Properties.

Section TickLaw.
Context {A : Type} `{Scalar A}.

(** C1: on a policy built by the constructor with gravity flag [g] (and
    changed by any number of updates), a tick on a state dictionary holding
    joint positions [q] and joint velocities [qd] returns the dictionary
    whose joint torques are [Jacobian(q)^T * wrench + inverse_dynamics(q,
    qd, 0)], the wrench being the PD output for the pose of [q], the twist
    [Jacobian(q) * qd], the held desired pose and the concatenated desired
    velocities; it raises exactly when that law does.  The robot model is
    invoked for nothing else than the forward kinematics of [q], the
    Jacobian of [q] and the inverse dynamics of [(q, qd)] with the zero
    acceleration vector and the flag [g]. *)
Theorem forward_torque_law
    (q0 : Tensor A) (Kp0 Kd0 : Matrix A) (rm : RobotModel A) (g : bool)
    (pol : Policy A) (sd : gmap string (Tensor A)) (q qd : Tensor A) log :
  constructed q0 Kp0 Kd0 rm g pol ->
  sd !! "joint_positions" = Some q ->
  sd !! "joint_velocities" = Some qd ->
  let run := forward sd pol log in
  run.1.1 = torque_dict (torque_law pol q qd) /\
  (robot_model pol = rm /\ invdyn pol = mkInverseDynamics rm g) /\
  (forall c, c ∈ run.2 ->
     c ∈ log \/ c = CallForwardKinematics q \/ c = CallJacobian q \/
     c = CallInverseDynamics q qd (zeros_like q) g) /\
  (forall out, torque_law pol q qd = Ok out ->
     run = (Ok {[ "joint_torques" := out ]}, pol,
            log ++ [CallForwardKinematics q; CallJacobian q;
                    CallInverseDynamics q qd (zeros_like q) g])).
Proof.
  intros Hpol Hq Hqd run. subst run.
  destruct (constructed_fixed _ _ _ _ _ _ Hpol) as (Hrm & Hid & _).
  rewrite (forward_run pol sd q qd log Hq Hqd).
  unfold torque_law, torque_dict, tick_calls, result_bind.
  rewrite Hid. simpl.
  destruct (forward_kinematics (robot_model pol) q) as [[pos quat] | e]; simpl.
  2: { repeat split; try assumption; [| discriminate].
       intros c [Hc | Hc%list_elem_of_singleton]%elem_of_app; auto. }
  destruct (compute_jacobian (robot_model pol) q) as [jacobian | e]; simpl.
  2: { repeat split; try assumption; [| discriminate].
       intros c [Hc | Hc]%elem_of_app; [auto |].
       apply elem_of_cons in Hc as [-> | Hc%list_elem_of_singleton]; auto. }
  destruct (feedback_torque pol pos quat jacobian qd) as [tfb | e]; simpl.
  2: { repeat split; try assumption; [| discriminate].
       intros c [Hc | Hc]%elem_of_app; [auto |].
       apply elem_of_cons in Hc as [-> | Hc%list_elem_of_singleton]; auto. }
  repeat split; try assumption.
  - intros c [Hc | Hc]%elem_of_app; [auto |].
    apply elem_of_cons in Hc as [-> | Hc]; [auto |].
    apply elem_of_cons in Hc as [-> | Hc%list_elem_of_singleton]; auto.
  - intros out Hout.
    destruct (inverse_dynamics rm q qd (zeros_like q) g) as [ff | e];
      [| discriminate].
    rewrite Hout. reflexivity.
Qed.

(** C2, as the code has it: a tick does not compare any length with the
    number of joints.  For every state dictionary that holds both vectors,
    whatever their lengths, the first thing it does is invoke forward
    kinematics on the joint positions; and when the joint velocities do
    not have as many entries as the Jacobian has columns, the call raises
    the size-mismatch error of the matrix product after forward kinematics
    and the Jacobian have been invoked, and returns no torques. *)
Theorem forward_shape_failure
    (pol : Policy A) (sd : gmap string (Tensor A)) (q qd : Tensor A) log :
  sd !! "joint_positions" = Some q ->
  sd !! "joint_velocities" = Some qd ->
  (exists rest, (forward sd pol log).2 = log ++ CallForwardKinematics q :: rest) /\
  (forall pos quat jacobian,
     forward_kinematics (robot_model pol) q = Ok (pos, quat) ->
     compute_jacobian (robot_model pol) q = Ok jacobian ->
     ncols jacobian <> length qd ->
     forward sd pol log =
     (Err RuntimeError, pol, log ++ [CallForwardKinematics q; CallJacobian q])).
Proof.
  intros Hq Hqd.
  rewrite (forward_run pol sd q qd log Hq Hqd). split.
  - destruct (forward_kinematics (robot_model pol) q) as [[pos quat] | e];
      [| eexists; reflexivity].
    destruct (compute_jacobian (robot_model pol) q) as [jacobian | e];
      [| eexists; reflexivity].
    destruct (feedback_torque pol pos quat jacobian qd);
      eexists; reflexivity.
  - intros pos quat jacobian -> -> Hne.
    unfold feedback_torque, matmul.
    apply Nat.eqb_neq in Hne. rewrite Hne. reflexivity.
Qed.
End TickLaw.

(** ** Arithmetic facts, in a commutative ring of scalars *)

Section Arithmetic.
Context {A : Type} `{ScalarRing A}.

Add Ring scalar_ring_structure :
  (scalar_ring : ring_theory s_zero s_one s_add s_mul s_sub s_opp eq).

Lemma length_zeros n : length (zeros (A := A) n) = n.
Proof. apply length_replicate. Qed.

Lemma dot_cons (x y : A) (r v : Tensor A) :
  dot (x :: r) (y :: v) = x *s y +s dot r v.
Proof. reflexivity. Qed.

Lemma dot_zeros_r (r : Tensor A) n : dot r (zeros n) = s_zero.
Proof.
  revert n. induction r as [| x r IH]; intros [| n]; try reflexivity.
  change (zeros (S n)) with (s_zero :: zeros n).
  rewrite dot_cons, IH. ring.
Qed.

Lemma dot_zeros_l (v : Tensor A) n : dot (zeros n) v = s_zero.
Proof.
  revert v. induction n as [| n IH]; intros [| x v]; try reflexivity.
  change (zeros (S n)) with (s_zero :: zeros n).
  rewrite dot_cons, IH. ring.
Qed.

Lemma map_const_zeros {X} (l : list X) :
  map (fun _ => s_zero) l = zeros (A := A) (length l).
Proof. induction l as [| x l IH]; simpl; [reflexivity |]. now rewrite IH. Qed.

Lemma matmul_zeros (m : Matrix A) n :
  ncols m = n -> rectangular m = true ->
  matmul m (zeros n) = Ok (zeros (nrows m)).
Proof.
  intros Hc Hr. unfold matmul. rewrite length_zeros, Hr.
  apply Nat.eqb_eq in Hc. rewrite Hc. simpl. f_equal.
  rewrite (map_ext _ (fun _ => s_zero)) by (intros r; apply dot_zeros_r).
  apply map_const_zeros.
Qed.

Lemma rectangular_zero_matrix n k : rectangular (zero_matrix (A := A) n k) = true.
Proof.
  unfold rectangular, zero_matrix. simpl.
  induction n as [| n IH]; simpl; [reflexivity |].
  rewrite length_zeros, Nat.eqb_refl. exact IH.
Qed.

Lemma zero_matrix_matmul n k (v : Tensor A) :
  length v = k -> matmul (zero_matrix n k) v = Ok (zeros n).
Proof.
  intros Hv. unfold matmul. rewrite rectangular_zero_matrix.
  simpl. rewrite Hv, Nat.eqb_refl. simpl. f_equal.
  induction n as [| n IH]; simpl; [reflexivity |].
  rewrite dot_zeros_l, IH. reflexivity.
Qed.


Lemma vector_add_zeros n : vector_add (zeros (A := A) n) (zeros n) = Ok (zeros n).
Proof.
  unfold vector_add, pointwise. rewrite Nat.eqb_refl. f_equal.
  unfold zeros.
  induction n as [| n IH]; simpl; [reflexivity |].
  f_equal; [ring | exact IH].
Qed.

Lemma vector_sub_length (a b c : Tensor A) :
  vector_sub a b = Ok c -> length c = length a /\ length b = length a.
Proof.
  unfold vector_sub, pointwise.
  destruct (Nat.eqb (length a) (length b)) eqn:Hlen; [| discriminate].
  apply Nat.eqb_eq in Hlen. intros [= <-].
  rewrite length_zip_with. lia.
Qed.

Lemma tensor_add_zeros_l (t : Tensor A) n :
  length t = n -> tensor_add (zeros n) t = Ok t.
Proof.
  intros <-. unfold tensor_add, broadcast.
  rewrite length_zeros, Nat.eqb_refl. f_equal.
  unfold zeros.
  induction t as [| x t IH]; simpl; [reflexivity |].
  f_equal; [ring | exact IH].
Qed.

Lemma transpose_shape (m : Matrix A) :
  ncols (transpose m) = nrows m /\
  nrows (transpose m) = ncols m /\
  rectangular (transpose m) = true.
Proof.
  unfold transpose, nrows, rectangular. simpl.
  rewrite length_map, length_seq. repeat split.
  apply forallb_forall. intros r Hr.
  apply in_map_iff in Hr as (j & <- & _).
  unfold column. rewrite length_map. apply Nat.eqb_refl.
Qed.



Lemma orientation_error_length (qc qd e : Tensor A) :
  orientation_error qc qd = Ok e -> length e = 3.
Proof.
  unfold orientation_error, result_bind.
  destruct (quaternion_of_tensor qc); [| discriminate].
  destruct (quaternion_of_tensor qd); [| discriminate].
  intros [= <-]. reflexivity.
Qed.

Lemma orientation_error_defined (qc qd : Tensor A) :
  length qc = 4 -> length qd = 4 -> exists e, orientation_error qc qd = Ok e.
Proof.
  destruct qc as [| ? [| ? [| ? [| ? [| ? ?]]]]]; try discriminate.
  destruct qd as [| ? [| ? [| ? [| ? [| ? ?]]]]]; try discriminate.
  intros _ _. eexists. reflexivity.
Qed.
End Arithmetic.

Section Gains.
Context {A : Type} `{ScalarRing A}.

Lemma matmul_defined (m : Matrix A) (v : Tensor A) :
  ncols m = length v -> rectangular m = true ->
  exists t, matmul m v = Ok t /\ length t = nrows m.
Proof.
  intros Hc Hr. unfold matmul. rewrite Hr.
  apply Nat.eqb_eq in Hc. rewrite Hc. simpl.
  eexists. split; [reflexivity |]. apply length_map.
Qed.

Lemma pointwise_defined (f : A -> A -> A) (a b : Tensor A) :
  length a = length b ->
  exists t, pointwise f a b = Ok t /\ length t = length a.
Proof.
  intros Hlen. unfold pointwise.
  rewrite Hlen, Nat.eqb_refl.
  eexists. split; [reflexivity |]. rewrite length_zip_with. lia.
Qed.


(** C6: on a policy constructed with the zero 6x6 matrix for both gains,
    and for a joint state on which the robot model returns a pose, a
    rectangular Jacobian with six rows and as many columns as there are
    joint velocities, and a feedforward torque of that length, the feedback
    torque [Jacobian^T * wrench] is the zero vector and the tick returns
    the feedforward torque alone. *)
Theorem zero_gains_pure_feedforward
    (q0 : Tensor A) (rm : RobotModel A) (g : bool) (pol : Policy A)
    (sd : gmap string (Tensor A)) (q qd : Tensor A) log
    (pos quat : Tensor A) (jacobian : Matrix A) (ff : Tensor A) :
  constructed q0 (zero_matrix 6 6) (zero_matrix 6 6) rm g pol ->
  sd !! "joint_positions" = Some q ->
  sd !! "joint_velocities" = Some qd ->
  forward_kinematics rm q = Ok (pos, quat) ->
  length pos = 3 -> length (ee_pos_desired pol) = 3 ->
  length quat = 4 -> length (ee_quat_desired pol) = 4 ->
  compute_jacobian rm q = Ok jacobian ->
  nrows jacobian = 6 -> ncols jacobian = length qd -> rectangular jacobian = true ->
  inverse_dynamics rm q qd (zeros_like q) g = Ok ff ->
  length ff = length qd ->
  feedback_torque pol pos quat jacobian qd = Ok (zeros (length qd)) /\
  forward sd pol log =
    (Ok {[ "joint_torques" := ff ]}, pol,
     log ++ [CallForwardKinematics q; CallJacobian q;
             CallInverseDynamics q qd (zeros_like q) g]).
Proof.
  intros Hpol Hq Hqd Hfk Hpos Hposd Hquat Hquatd Hjac Hrows Hcols Hrect Hid Hff.
  destruct (constructed_fixed _ _ _ _ _ _ Hpol) as (Hrm & Hinv & Hpd & Hv & Hrv).
  assert (Hfb : feedback_torque pol pos quat jacobian qd = Ok (zeros (length qd))).
  { unfold feedback_torque. rewrite Hpd, Hv, Hrv. simpl Kp.
    destruct (matmul_defined jacobian qd Hcols Hrect) as (twist & -> & Htwist).
    cbn [result_bind]. unfold pose_pd_forward. simpl Kp. simpl Kd.
    destruct (pointwise_defined s_sub (ee_pos_desired pol) pos)
      as (pos_err & Hpe & Hpel); [congruence |].
    unfold vector_sub at 1. rewrite Hpe. cbn [result_bind].
    destruct (orientation_error_defined quat (ee_quat_desired pol) Hquat Hquatd)
      as (ori_err & Hoe).
    rewrite Hoe. cbn [result_bind].
    apply orientation_error_length in Hoe.
    destruct (pointwise_defined s_sub (cat (zeros 3) (zeros 3)) twist)
      as (twist_err & Hte & Htel).
    { rewrite Htwist, Hrows. reflexivity. }
    unfold vector_sub. rewrite Hte. cbn [result_bind].
    rewrite zero_matrix_matmul
      by (unfold cat; rewrite length_app, Hpel, Hposd, Hoe; reflexivity).
    cbn [result_bind].
    rewrite zero_matrix_matmul by (rewrite Htel; reflexivity).
    cbn [result_bind]. rewrite vector_add_zeros. cbn [result_bind].
    destruct (transpose_shape jacobian) as (Htc & Htr & Htw).
    rewrite matmul_zeros by (congruence || assumption).
    rewrite Htr, Hcols. reflexivity. }
  split; [exact Hfb |].
  rewrite (forward_run pol sd q qd log Hq Hqd).
  rewrite Hrm, Hfk, Hjac, Hfb.
  unfold torque_dict, tick_calls. rewrite Hinv.
  cbn [invdyn_robot_model ignore_gravity].
  rewrite Hid. cbn [result_bind].
  rewrite tensor_add_zeros_l by exact Hff.
  reflexivity.
Qed.
End Gains.

(** ** The planar arm as a test case *)

Section PlanarArm.
Local Open Scope Z_scope.
Import Planar.

Lemma planar_policy_constructed :
  constructed [4; 5] (diag6 10) (diag6 1) model true policy.
Proof. apply (constructed_init _ _ _ _ _ None None []). reflexivity. Qed.

Lemma planar_limp_constructed :
  constructed [4; 5] (zero_matrix 6 6) (zero_matrix 6 6) model true limp.
Proof. apply (constructed_init _ _ _ _ _ None None []). reflexivity. Qed.

(** A tick of the planar arm away from its target. *)
Lemma forward_torque_law_witness :
  constructed [4; 5] (diag6 10) (diag6 1) model true policy /\
  forward (state [1; 2] [3; 4]) policy [] =
    (Ok {[ "joint_torques" := [43; 38] ]}, policy,
     [CallForwardKinematics [1; 2]; CallJacobian [1; 2];
      CallInverseDynamics [1; 2] [3; 4] [0; 0] true]).
Proof.
  split; [exact planar_policy_constructed |].
  apply (forward_torque_law [4; 5] (diag6 10) (diag6 1) model true policy
           (state [1; 2] [3; 4]) [1; 2] [3; 4] []
           planar_policy_constructed eq_refl eq_refl).
  reflexivity.
Defined.

(** The velocities have three entries, the arm two joints: the product with
    the Jacobian fails once forward kinematics and the Jacobian have run. *)
Lemma forward_shape_failure_witness :
  ncols jacobian <> length [3; 4; 5] /\
  forward (state [1; 2] [3; 4; 5]) policy [] =
    (Err RuntimeError, policy,
     [CallForwardKinematics [1; 2]; CallJacobian [1; 2]]).
Proof.
  split; [discriminate |].
  apply (proj2 (forward_shape_failure policy (state [1; 2] [3; 4; 5])
                  [1; 2] [3; 4; 5] [] eq_refl eq_refl)
           [1; 2; 0] [0; 0; 0; 1] jacobian);
    [reflexivity | reflexivity | discriminate].
Defined.

(** C2 fails on the code: with a velocity vector of the wrong length the
    tick raises only after two robot-model invocations, and with a position
    vector of the wrong length the robot model is invoked on it and it is
    the model's own exception that ends the tick.  In neither run is the
    log empty. *)
Lemma forward_checks_no_shape_counterexample :
  (length [3; 4; 5] <> dof /\
   forward (state [1; 2] [3; 4; 5]) policy [] =
     (Err RuntimeError, policy,
      [CallForwardKinematics [1; 2]; CallJacobian [1; 2]]) /\
   ~ fails_before_robot_model (forward (state [1; 2] [3; 4; 5]) policy []) []) /\
  (length [1; 2; 3] <> dof /\
   forward (state [1; 2; 3] [3; 4]) policy [] =
     (Err (ModelError 1), policy, [CallForwardKinematics [1; 2; 3]]) /\
   ~ fails_before_robot_model (forward (state [1; 2; 3] [3; 4]) policy []) []).
Proof.
  split; (split; [discriminate |]); (split; [reflexivity |]);
    intros (e & _ & Hlog); discriminate Hlog.
Qed.

(** Construction of the planar policy without targets. *)
Lemma init_holds_current_pose_witness :
  forward_kinematics model [4; 5] = Ok ([4; 5; 0], [0; 0; 0; 1]) /\
  exists pol,
    (__init__ [4; 5] (diag6 10) (diag6 1) model true None None tt []).1.1 = Ok pol /\
    (@None (Tensor Z) = None -> ee_pos_desired pol = [4; 5; 0]) /\
    (@None (Tensor Z) = None -> ee_quat_desired pol = [0; 0; 0; 1]) /\
    ee_vel_desired pol = zeros 3 /\
    ee_rvel_desired pol = zeros 3.
Proof.
  split; [reflexivity |].
  apply (init_holds_current_pose [4; 5] (diag6 10) (diag6 1) model true
           None None [] [4; 5; 0] [0; 0; 0; 1]).
  reflexivity.
Defined.

(** Retargeting the planar policy, then a tick: the torques are those for
    the new target, not the [(43, 38)] of the old one. *)
Lemma update_then_forward_is_fresh_witness :
  let fresh := mkPolicy model (mkInverseDynamics model true)
                 (mkCartesianSpacePDFast (diag6 10) (diag6 1))
                 [1; 1; 0] [0; 1; 0; 0] [0; 0; 0] [0; 0; 0] in
  let run := bind (update_desired_ee_pose [1; 1; 0] [0; 1; 0; 0])
                  (fun _ => forward (state [1; 2] [3; 4])) policy [] in
  constructed [4; 5] (diag6 10) (diag6 1) model true policy /\
  (__init__ [4; 5] (diag6 10) (diag6 1) model true
     (Some [1; 1; 0]) (Some [0; 1; 0; 0]) tt []).1.1 = Ok fresh /\
  (run = forward (state [1; 2] [3; 4]) fresh [] /\
   ee_pos_desired run.1.2 = [1; 1; 0] /\
   ee_quat_desired run.1.2 = [0; 1; 0; 0] /\
   (forall q qd,
      state [1; 2] [3; 4] !! "joint_positions" = Some q ->
      state [1; 2] [3; 4] !! "joint_velocities" = Some qd ->
      run.1.1 =
        torque_dict
          (torque_law_against model (mkCartesianSpacePDFast (diag6 10) (diag6 1))
             true [1; 1; 0] [0; 1; 0; 0] (zeros 6) q qd))) /\
  run.1.1 = Ok {[ "joint_torques" := [13; -2] ]}.
Proof.
  intros fresh run.
  split; [exact planar_policy_constructed |].
  split; [reflexivity |].
  split; [| reflexivity].
  exact (update_then_forward_is_fresh [4; 5] (diag6 10) (diag6 1) model true
           policy fresh [1; 1; 0] [0; 1; 0; 0] (state [1; 2] [3; 4]) [] []
           planar_policy_constructed eq_refl).
Defined.


(** A tick of the planar arm with zero gains. *)
Lemma zero_gains_pure_feedforward_witness :
  constructed [4; 5] (zero_matrix 6 6) (zero_matrix 6 6) model true limp /\
  feedback_torque limp [1; 2; 0] [0; 0; 0; 1] jacobian [3; 4] = Ok (zeros 2) /\
  forward (state [1; 2] [3; 4]) limp [] =
    (Ok {[ "joint_torques" := [16; 12] ]}, limp,
     [CallForwardKinematics [1; 2]; CallJacobian [1; 2];
      CallInverseDynamics [1; 2] [3; 4] (zeros_like [1; 2]) true]).
Proof.
  split; [exact planar_limp_constructed |].
  apply (zero_gains_pure_feedforward [4; 5] model true limp
           (state [1; 2] [3; 4]) [1; 2] [3; 4] []
           [1; 2; 0] [0; 0; 0; 1] jacobian [16; 12]
           planar_limp_constructed);
    reflexivity.
Defined.
End PlanarArm.

(** * Further properties of the three methods *)

(** ** Errors of a tick *)

Section TickErrors.
Context {A : Type} `{Scalar A}.
Local Open Scope eff_scope.

(** A state dictionary without joint positions ends the tick with the
    [KeyError] of that key, and one with positions but without velocities
    with the [KeyError] of the velocities; in both cases the robot model has
    not been invoked and the policy is as before. *)
Theorem forward_missing_key
    (sd : gmap string (Tensor A)) (pol : Policy A) log :
  (sd !! "joint_positions" = None ->
   forward sd pol log = (Err (KeyError "joint_positions"), pol, log)) /\
  (forall q, sd !! "joint_positions" = Some q ->
             sd !! "joint_velocities" = None ->
   forward sd pol log = (Err (KeyError "joint_velocities"), pol, log)).
Proof.
  split.
  - intros Hq. unfold forward, getitem. rewrite Hq. reflexivity.
  - intros q Hq Hqd. unfold forward, getitem. rewrite Hq, Hqd. reflexivity.
Qed.

(** A tick reads nothing of the state dictionary but the two joint vectors:
    two dictionaries that agree on them give the same run. *)
Theorem forward_reads_two_keys
    (sd sd' : gmap string (Tensor A)) (pol : Policy A) log :
  sd !! "joint_positions" = sd' !! "joint_positions" ->
  sd !! "joint_velocities" = sd' !! "joint_velocities" ->
  forward sd pol log = forward sd' pol log.
Proof.
  intros Hq Hqd. unfold forward, getitem, bind.
  rewrite Hq, Hqd. reflexivity.
Qed.

(** An exception of the robot model ends the tick as that exception, and
    what would have come after is not invoked: a failure of forward
    kinematics leaves the Jacobian and the inverse dynamics uncalled, a
    failure of the Jacobian or of the feedback computation leaves the
    inverse dynamics uncalled, and a failure of the inverse dynamics comes
    after the two others. *)
Theorem forward_propagates_model_errors
    (pol : Policy A) (sd : gmap string (Tensor A)) (q qd : Tensor A) log :
  sd !! "joint_positions" = Some q ->
  sd !! "joint_velocities" = Some qd ->
  (forall e, forward_kinematics (robot_model pol) q = Err e ->
     forward sd pol log = (Err e, pol, log ++ [CallForwardKinematics q])) /\
  (forall pos quat e,
     forward_kinematics (robot_model pol) q = Ok (pos, quat) ->
     compute_jacobian (robot_model pol) q = Err e ->
     forward sd pol log =
       (Err e, pol, log ++ [CallForwardKinematics q; CallJacobian q])) /\
  (forall pos quat jacobian e,
     forward_kinematics (robot_model pol) q = Ok (pos, quat) ->
     compute_jacobian (robot_model pol) q = Ok jacobian ->
     feedback_torque pol pos quat jacobian qd = Err e ->
     forward sd pol log =
       (Err e, pol, log ++ [CallForwardKinematics q; CallJacobian q])) /\
  (forall pos quat jacobian torque_feedback e,
     forward_kinematics (robot_model pol) q = Ok (pos, quat) ->
     compute_jacobian (robot_model pol) q = Ok jacobian ->
     feedback_torque pol pos quat jacobian qd = Ok torque_feedback ->
     inverse_dynamics (invdyn_robot_model (invdyn pol)) q qd (zeros_like q)
       (ignore_gravity (invdyn pol)) = Err e ->
     forward sd pol log = (Err e, pol, log ++ tick_calls pol q qd)).
Proof.
  intros Hq Hqd. rewrite (forward_run pol sd q qd log Hq Hqd).
  repeat split.
  - intros e ->. reflexivity.
  - intros pos quat e -> ->. reflexivity.
  - intros pos quat jacobian e -> -> ->. reflexivity.
  - intros pos quat jacobian tfb e -> -> -> ->. reflexivity.
Qed.

Lemma matmul_ok_inv (m : Matrix A) (v t : Tensor A) :
  matmul m v = Ok t ->
  ncols m = length v /\ rectangular m = true /\ length t = nrows m.
Proof.
  unfold matmul.
  destruct (Nat.eqb (ncols m) (length v)) eqn:Hc; [| discriminate].
  destruct (rectangular m) eqn:Hr; [| discriminate].
  simpl. intros [= <-]. apply Nat.eqb_eq in Hc.
  repeat split; [exact Hc |]. apply length_map.
Qed.

(** The feedback torque has one entry per joint velocity. *)
Lemma feedback_torque_length (pol : Policy A) pos quat jacobian qd tfb :
  feedback_torque pol pos quat jacobian qd = Ok tfb -> length tfb = length qd.
Proof.
  unfold feedback_torque, result_bind.
  destruct (matmul jacobian qd) as [twist |] eqn:Htw; [| discriminate].
  destruct (pose_pd_forward _ _ _ _ _ _ _) as [wrench |]; [| discriminate].
  intros Hm. apply matmul_ok_inv in Hm as (_ & _ & ->).
  apply matmul_ok_inv in Htw as (<- & _ & _).
  unfold nrows, transpose. simpl. rewrite length_map. apply length_seq.
Qed.

Lemma broadcast_same_length (f : A -> A -> A) (a b : Tensor A) :
  length a = length b ->
  broadcast f a b = Ok (zip_with f a b).
Proof.
  intros Hlen. unfold broadcast. apply Nat.eqb_eq in Hlen. now rewrite Hlen.
Qed.

(** When the tick returns and the inverse dynamics gave one torque per joint
    velocity, the returned dictionary holds the single key
    ["joint_torques"], and its vector has one entry per joint velocity. *)
Theorem forward_torque_shape
    (pol pol' : Policy A) (sd d : gmap string (Tensor A))
    (q qd ff : Tensor A) log log' :
  sd !! "joint_positions" = Some q ->
  sd !! "joint_velocities" = Some qd ->
  inverse_dynamics (invdyn_robot_model (invdyn pol)) q qd (zeros_like q)
    (ignore_gravity (invdyn pol)) = Ok ff ->
  length ff = length qd ->
  forward sd pol log = (Ok d, pol', log') ->
  exists out, d = {[ "joint_torques" := out ]} /\ length out = length qd.
Proof.
  intros Hq Hqd Hid Hff. rewrite (forward_run pol sd q qd log Hq Hqd).
  destruct (forward_kinematics (robot_model pol) q) as [[pos quat] | e];
    [| discriminate].
  destruct (compute_jacobian (robot_model pol) q) as [jacobian | e];
    [| discriminate].
  destruct (feedback_torque pol pos quat jacobian qd) as [tfb | e] eqn:Hfb;
    [| discriminate].
  apply feedback_torque_length in Hfb.
  rewrite Hid. unfold torque_dict, tensor_add. cbn [result_bind].
  rewrite broadcast_same_length by congruence. cbn [result_bind].
  intros [= <- _ _]. eexists. split; [reflexivity |].
  rewrite length_zip_with. lia.
Qed.

(** A feedforward torque whose length is neither one nor the number of joint
    velocities, that number not being one either, ends the tick with a size
    mismatch after all three robot-model invocations; no torques are
    returned. *)
Theorem forward_feedforward_size_mismatch
    (pol : Policy A) (sd : gmap string (Tensor A))
    (q qd pos quat : Tensor A) (jacobian : Matrix A)
    (torque_feedback ff : Tensor A) log :
  sd !! "joint_positions" = Some q ->
  sd !! "joint_velocities" = Some qd ->
  forward_kinematics (robot_model pol) q = Ok (pos, quat) ->
  compute_jacobian (robot_model pol) q = Ok jacobian ->
  feedback_torque pol pos quat jacobian qd = Ok torque_feedback ->
  inverse_dynamics (invdyn_robot_model (invdyn pol)) q qd (zeros_like q)
    (ignore_gravity (invdyn pol)) = Ok ff ->
  length ff <> length qd -> length ff <> 1 -> length qd <> 1 ->
  forward sd pol log = (Err RuntimeError, pol, log ++ tick_calls pol q qd).
Proof.
  intros Hq Hqd Hfk Hjac Hfb Hid Hne Hff1 Hqd1.
  rewrite (forward_run pol sd q qd log Hq Hqd), Hfk, Hjac, Hfb, Hid.
  apply feedback_torque_length in Hfb.
  unfold torque_dict, tensor_add, broadcast. cbn [result_bind].
  assert (Hlen : Nat.eqb (length torque_feedback) (length ff) = false)
    by (apply Nat.eqb_neq; congruence).
  rewrite Hlen.
  destruct torque_feedback as [| x [| x' tfb]]; simpl in Hfb;
    [| congruence |];
    destruct ff as [| y [| y' ff]]; simpl in *; congruence.
Qed.

(** A feedforward torque with a single entry does not end the tick: the
    entry is added to the feedback torque of every joint. *)
Theorem forward_broadcasts_single_feedforward
    (pol : Policy A) (sd : gmap string (Tensor A))
    (q qd pos quat : Tensor A) (jacobian : Matrix A)
    (torque_feedback : Tensor A) (y : A) log :
  sd !! "joint_positions" = Some q ->
  sd !! "joint_velocities" = Some qd ->
  forward_kinematics (robot_model pol) q = Ok (pos, quat) ->
  compute_jacobian (robot_model pol) q = Ok jacobian ->
  feedback_torque pol pos quat jacobian qd = Ok torque_feedback ->
  inverse_dynamics (invdyn_robot_model (invdyn pol)) q qd (zeros_like q)
    (ignore_gravity (invdyn pol)) = Ok [y] ->
  forward sd pol log =
    (Ok {[ "joint_torques" := map (fun t => t +s y) torque_feedback ]},
     pol, log ++ tick_calls pol q qd).
Proof.
  intros Hq Hqd Hfk Hjac Hfb Hid.
  rewrite (forward_run pol sd q qd log Hq Hqd), Hfk, Hjac, Hfb, Hid.
  unfold torque_dict, tensor_add, broadcast. cbn [result_bind].
  destruct torque_feedback as [| x [| x' tfb]]; reflexivity.
Qed.
End TickErrors.

(** ** What no sequence of calls changes *)

Section Invariants.
Context {A : Type} `{Scalar A}.
Local Open Scope eff_scope.

Lemma reachable_constructed
    (q0 : Tensor A) (Kp0 Kd0 : Matrix A) (rm : RobotModel A) (g : bool)
    (pol : Policy A) :
  reachable q0 Kp0 Kd0 rm g pol -> constructed q0 Kp0 Kd0 rm g pol.
Proof.
  induction 1 as [p0 o0 log pol Hinit | pos quat log pol _ IH
                 | sd log pol _ IH].
  - exact (constructed_init _ _ _ _ _ p0 o0 log pol Hinit).
  - exact (constructed_update _ _ _ _ _ pos quat log pol IH).
  - rewrite forward_read_only. exact IH.
Qed.

Lemma reachable_keeps_configuration_aux
    (q0 : Tensor A) (Kp0 Kd0 : Matrix A) (rm : RobotModel A) (g : bool)
    (pol : Policy A) :
  reachable q0 Kp0 Kd0 rm g pol ->
  robot_model pol = rm /\
  invdyn pol = mkInverseDynamics rm g /\
  pose_pd pol = mkCartesianSpacePDFast Kp0 Kd0 /\
  ee_vel_desired pol = zeros 3 /\
  ee_rvel_desired pol = zeros 3.
Proof.
  intros Hpol. apply (constructed_fixed q0 Kp0 Kd0 rm g).
  apply reachable_constructed. exact Hpol.
Qed.

(** Whatever sequence of updates and ticks follows the construction, returning
    or raising, the object keeps the robot model, the gravity flag and the
    gains it was constructed with, and its desired linear and angular
    velocities stay the zero 3-vector: the desired twist of every tick is the
    zero 6-vector. *)
Theorem reachable_keeps_configuration
    (q0 : Tensor A) (Kp0 Kd0 : Matrix A) (rm : RobotModel A) (g : bool)
    (pol : Policy A) :
  reachable q0 Kp0 Kd0 rm g pol ->
  robot_model pol = rm /\
  invdyn pol = mkInverseDynamics rm g /\
  pose_pd pol = mkCartesianSpacePDFast Kp0 Kd0 /\
  ee_vel_desired pol = zeros 3 /\
  ee_rvel_desired pol = zeros 3 /\
  cat (ee_vel_desired pol) (ee_rvel_desired pol) = zeros 6.
Proof.
  intros Hpol.
  destruct (reachable_keeps_configuration_aux _ _ _ _ _ _ Hpol)
    as (Hrm & Hid & Hpd & Hv & Hrv).
  repeat split; try assumption.
  rewrite Hv, Hrv. reflexivity.
Qed.

(** Of two updates in a row only the second one counts: the pair returns
    normally, invokes the robot model for nothing (the log is the one it
    started with), and leaves the object with the second position and
    orientation and every other attribute as before, which is what the second
    update does on its own. *)
Theorem update_last_write_wins
    (pos1 quat1 pos2 quat2 : Tensor A) (pol : Policy A) log :
  (update_desired_ee_pose pos1 quat1 ;;; update_desired_ee_pose pos2 quat2) pol log
  = (Ok tt,
     mkPolicy (robot_model pol) (invdyn pol) (pose_pd pol)
              pos2 quat2 (ee_vel_desired pol) (ee_rvel_desired pol),
     log) /\
  (update_desired_ee_pose pos1 quat1 ;;; update_desired_ee_pose pos2 quat2) pol log
  = update_desired_ee_pose pos2 quat2 pol log.
Proof.
  unfold bind. rewrite !update_run. split; reflexivity.
Qed.

(** The log a tick starts with is only ever extended, and the run does not
    depend on it. *)
Lemma forward_log_frame (sd : gmap string (Tensor A)) (pol : Policy A) log :
  forward sd pol log =
  ((forward sd pol []).1.1, (forward sd pol []).1.2, log ++ (forward sd pol []).2).
Proof.
  destruct (sd !! "joint_positions") as [q |] eqn:Hq.
  2: { unfold forward, getitem, bind, lift. rewrite Hq. simpl.
       now rewrite app_nil_r. }
  destruct (sd !! "joint_velocities") as [qd |] eqn:Hqd.
  2: { unfold forward, getitem, bind, lift, ret. rewrite Hq, Hqd. simpl.
       now rewrite app_nil_r. }
  rewrite !(forward_run pol sd q qd _ Hq Hqd).
  destruct (forward_kinematics (robot_model pol) q) as [[pos quat] | e];
    [| reflexivity].
  destruct (compute_jacobian (robot_model pol) q) as [jacobian | e];
    [| reflexivity].
  destruct (feedback_torque pol pos quat jacobian qd); reflexivity.
Qed.

(** Ticks carry nothing over from one to the next: after a tick that
    returned, a second tick behaves as it would have on its own, and the log
    holds the invocations of the first followed by those of the second. *)
Theorem forward_twice
    (sd1 sd2 d1 : gmap string (Tensor A)) (pol : Policy A) log :
  (forward sd1 pol log).1.1 = Ok d1 ->
  (forward sd1 ;;; forward sd2) pol log =
  ((forward sd2 pol []).1.1, pol,
   (forward sd1 pol log).2 ++ (forward sd2 pol []).2).
Proof.
  intros Hfirst. unfold bind.
  pose proof (forward_read_only sd1 pol log) as Hro.
  destruct (forward sd1 pol log) as [[r p] l]. simpl in *. subst r p.
  rewrite forward_log_frame. rewrite (forward_read_only sd2 pol []).
  reflexivity.
Qed.
End Invariants.

(** ** A tick at the target *)

Section AtTarget.
Context {A : Type} `{ScalarRing A}.

Add Ring scalar_ring_at_target :
  (scalar_ring : ring_theory s_zero s_one s_add s_mul s_sub s_opp eq).




End AtTarget.

(** ** The planar arm again *)

Section PlanarArmFurther.
Local Open Scope Z_scope.
Import Planar.

Lemma planar_policy_reachable :
  reachable [4; 5] (diag6 10) (diag6 1) model true policy.
Proof. apply (reachable_init _ _ _ _ _ None None []). reflexivity. Qed.

(** A state dictionary with the joint positions only. *)
Lemma forward_missing_key_witness :
  forward ({[ "joint_positions" := [1; 2] ]} : gmap string (Tensor Z)) policy [] =
    (Err (KeyError "joint_velocities"), policy, []).
Proof.
  apply (proj2 (forward_missing_key {[ "joint_positions" := [1; 2] ]} policy [])
           [1; 2]); reflexivity.
Defined.

(** An extra entry of the state dictionary is not looked at. *)
Lemma forward_reads_two_keys_witness :
  forward (<[ "gripper_width" := [9] ]> (state [1; 2] [3; 4])) policy [] =
  forward (state [1; 2] [3; 4]) policy [].
Proof.
  apply (forward_reads_two_keys
           (<[ "gripper_width" := [9] ]> (state [1; 2] [3; 4]))
           (state [1; 2] [3; 4]) policy []); reflexivity.
Defined.

(** Three joint positions on the two-joint arm: forward kinematics raises. *)
Lemma forward_propagates_model_errors_witness :
  forward (state [1; 2; 3] [3; 4]) policy [] =
    (Err (ModelError 1), policy, [CallForwardKinematics [1; 2; 3]]).
Proof.
  apply (proj1 (forward_propagates_model_errors policy (state [1; 2; 3] [3; 4])
                  [1; 2; 3] [3; 4] [] eq_refl eq_refl)).
  reflexivity.
Defined.

Lemma forward_torque_shape_witness :
  exists out,
    ({[ "joint_torques" := [43; 38] ]} : gmap string (Tensor Z))
      = {[ "joint_torques" := out ]} /\
    length out = length [3; 4].
Proof.
  apply (forward_torque_shape policy policy (state [1; 2] [3; 4])
           {[ "joint_torques" := [43; 38] ]} [1; 2] [3; 4] [16; 12] []
           [CallForwardKinematics [1; 2]; CallJacobian [1; 2];
            CallInverseDynamics [1; 2] [3; 4] [0; 0] true]);
    reflexivity.
Defined.

(** Three feedforward torques on the two-joint arm. *)
Lemma forward_feedforward_size_mismatch_witness :
  forward (state [1; 2] [3; 4]) (policy_on (with_feedforward [1; 2; 3])) [] =
    (Err RuntimeError, policy_on (with_feedforward [1; 2; 3]),
     [CallForwardKinematics [1; 2]; CallJacobian [1; 2];
      CallInverseDynamics [1; 2] [3; 4] [0; 0] true]).
Proof.
  exact (forward_feedforward_size_mismatch
           (policy_on (with_feedforward [1; 2; 3])) (state [1; 2] [3; 4])
           [1; 2] [3; 4] [1; 2; 0] [0; 0; 0; 1] jacobian [27; 26] [1; 2; 3] []
           eq_refl eq_refl eq_refl eq_refl eq_refl eq_refl
           ltac:(discriminate) ltac:(discriminate) ltac:(discriminate)).
Defined.

(** One feedforward torque on the two-joint arm. *)
Lemma forward_broadcasts_single_feedforward_witness :
  forward (state [1; 2] [3; 4]) (policy_on (with_feedforward [5])) [] =
    (Ok {[ "joint_torques" := [32; 31] ]}, policy_on (with_feedforward [5]),
     [CallForwardKinematics [1; 2]; CallJacobian [1; 2];
      CallInverseDynamics [1; 2] [3; 4] [0; 0] true]).
Proof.
  exact (forward_broadcasts_single_feedforward
           (policy_on (with_feedforward [5])) (state [1; 2] [3; 4])
           [1; 2] [3; 4] [1; 2; 0] [0; 0; 0; 1] jacobian [27; 26] 5 []
           eq_refl eq_refl eq_refl eq_refl eq_refl eq_refl).
Defined.

Lemma reachable_keeps_configuration_witness :
  reachable [4; 5] (diag6 10) (diag6 1) model true
    (forward (state [1; 2] [3; 4; 5])
       (update_desired_ee_pose [1; 1; 0] [0; 1; 0; 0] policy []).1.2 []).1.2 /\
  cat (ee_vel_desired policy) (ee_rvel_desired policy) = zeros 6.
Proof.
  split.
  - apply reachable_tick, reachable_update. exact planar_policy_reachable.
  - apply (reachable_keeps_configuration [4; 5] (diag6 10) (diag6 1) model true
             policy planar_policy_reachable).
Defined.

Lemma forward_twice_witness :
  bind (forward (state [1; 2] [3; 4])) (fun _ => forward (state [4; 5] [0; 0]))
       policy [] =
    (Ok {[ "joint_torques" := [0; 0] ]}, policy,
     [CallForwardKinematics [1; 2]; CallJacobian [1; 2];
      CallInverseDynamics [1; 2] [3; 4] [0; 0] true;
      CallForwardKinematics [4; 5]; CallJacobian [4; 5];
      CallInverseDynamics [4; 5] [0; 0] [0; 0] true]).
Proof.
  exact (forward_twice (state [1; 2] [3; 4]) (state [4; 5] [0; 0])
           {[ "joint_torques" := [43; 38] ]} policy [] eq_refl).
Defined.


End PlanarArmFurther.
